(** * Theme picker and keyboard shortcuts of NUSMods

    A shallow embedding of
    - [app/scripts/common/themes/themePicker.js] (module [ThemePicker]) and
    - [website/src/views/components/KeyboardShortcuts.tsx]
      (module [KeyboardShortcuts]),
    followed by the properties established for them. *)

From Stdlib Require Import ZArith Lia Ascii String.
From stdpp Require Import gmap strings list fin_maps.

Local Open Scope Z_scope.
Local Open Scope string_scope.
Local Open Scope list_scope.

(** ** JavaScript values used by both files *)

(** A JS value that is either a string or [undefined] ([None]). *)
Abbreviation jsval := (option string).

(** [String(v)] as used by string concatenation. *)
Definition js_to_string (v : jsval) : string :=
  match v with
  | Some s => s
  | None => "undefined"
  end.

(** [a % n] on integers: the sign follows the dividend, and [n = 0] gives
    [NaN], here [None]. *)
Definition js_rem (a n : Z) : option Z :=
  if decide (n = 0) then None else Some (Z.rem a n).

(** [arr[i]] for an integer [i]: [undefined] outside the array. *)
Definition js_index {A} (arr : list A) (i : Z) : option A :=
  if decide (0 <= i) then arr !! Z.to_nat i else None.

(** [arr.indexOf(x)], with strict equality; [-1] when absent. *)
Fixpoint indexOf_from (arr : list string) (x : jsval) (i : Z) : Z :=
  match arr with
  | [] => -1
  | y :: arr' => if decide (x = Some y) then i else indexOf_from arr' x (i + 1)
  end.

Definition indexOf (arr : list string) (x : jsval) : Z := indexOf_from arr x 0.

(** Outcome of a call that may throw a [TypeError]. *)
Inductive outcome (A : Type) : Type :=
| Returns (a : A)
| TypeError.
Arguments Returns {A} a.
Arguments TypeError {A}.

(** ** themePicker.js *)

Module ThemePicker.

(** An entry of [themeOptions.json], of which the picker reads [value]
    only. *)
Record ThemeOption := { value : string }.

(** The part of the page and of the preference store the picker touches. *)
Record Page := {
  (** attributes of [body] *)
  body_attrs : gmap string string;
  (** class list of [body] *)
  body_classes : list string;
  (** value of [#theme-options], when that element is on the page *)
  theme_options : option string;
  (** the [mode-radios] radio buttons: value and checked flag *)
  mode_radios : list (string * bool);
  (** [href] of [#mode], when that element is on the page *)
  mode_href : option string;
  (** [localforage] *)
  storage : gmap string jsval
}.

(** [$el.attr(name, value)]: with [value] undefined jQuery sets nothing. *)
Definition attr_set (name : string) (v : jsval) (attrs : gmap string string)
  : gmap string string :=
  match v with
  | Some s => <[name := s]> attrs
  | None => attrs
  end.

(** [$el.val(value)] on an element that may be absent. *)
Definition val_set (v : jsval) (el : option string) : option string :=
  match el, v with
  | Some _, Some s => Some s
  | _, _ => el
  end.

(** [$radios.val([v])]: a radio is checked iff its value is [v]. *)
Definition radios_val (v : string) (radios : list (string * bool))
  : list (string * bool) :=
  map (fun r => (fst r, bool_decide (fst r = v))) radios.

Definition updateAppearance (property : string) (v : jsval) (p : Page) : Page :=
  let storage' := <[property := v]> (storage p) in
  let attrs' := attr_set ("data-" +:+ property) v (body_attrs p) in
  let classes' :=
    map (fun prop => prop +:+ "-" +:+ js_to_string (attrs' !! ("data-" +:+ prop)))
        ["mode"; "theme"] in
  {| body_attrs := attrs';
     body_classes := classes';
     theme_options := theme_options p;
     mode_radios := mode_radios p;
     mode_href := mode_href p;
     storage := storage' |}.

Definition applyTheme (newTheme : jsval) (p : Page) : Page :=
  let p1 :=
    {| body_attrs := body_attrs p;
       body_classes := body_classes p;
       theme_options := val_set newTheme (theme_options p);
       mode_radios := mode_radios p;
       mode_href := mode_href p;
       storage := storage p |} in
  updateAppearance "theme" newTheme p1.

Definition toggleMode (p : Page) : Page :=
  let newMode :=
    if decide (body_attrs p !! "data-mode" = Some "default")
    then "slate" else "default" in
  let cssFile :=
    if decide (newMode <> "default")
    then "/styles/" +:+ newMode +:+ ".min.css" else "" in
  let p1 :=
    {| body_attrs := body_attrs p;
       body_classes := body_classes p;
       theme_options := theme_options p;
       mode_radios := radios_val newMode (mode_radios p);
       mode_href := (fun _ => cssFile) <$> mode_href p;
       storage := storage p |} in
  updateAppearance "mode" (Some newMode) p1.

(** The theme the page currently shows: [$('body').attr('data-theme')]. *)
Definition currentTheme (p : Page) : jsval := body_attrs p !! "data-theme".

Definition currentMode (p : Page) : jsval := body_attrs p !! "data-mode".

Section Catalog.

(** [themeOptions.json], loaded once. *)
Variable themeOptions : list ThemeOption.

Definition allThemes : list string := map value themeOptions.

Definition selectNextTheme (direction : string) (p : Page) : outcome Page :=
  let len := Z.of_nat (length allThemes) in
  let newIndex :=
    indexOf allThemes (currentTheme p)
    + (if decide (direction = "Left") then -1 else 1) in
  match js_rem (newIndex + len) len with
  | None => TypeError
  | Some newIndex =>
      match js_index themeOptions newIndex with
      | None => TypeError
      | Some o => Returns (applyTheme (Some (value o)) p)
      end
  end.

(** The [do ... while] loop of [selectRandomTheme].  [draws k] is the value
    of [Math.floor(Math.random() * allThemes.length)] at the [k]-th
    evaluation; the loop gives up ([None]) when [fuel] iterations did not
    leave it. *)
Fixpoint randomLoop (draws : nat -> nat) (current : jsval)
    (fuel : nat) (k : nat) : option jsval :=
  match fuel with
  | O => None
  | S fuel' =>
      let newTheme := allThemes !! draws k in
      if decide (newTheme = current)
      then randomLoop draws current fuel' (S k)
      else Some newTheme
  end.

Definition selectRandomTheme (draws : nat -> nat) (fuel : nat) (p : Page)
  : option Page :=
  match randomLoop draws (currentTheme p) fuel 0 with
  | Some newTheme => Some (applyTheme newTheme p)
  | None => None
  end.

End Catalog.

(** Concrete catalogs and pages used in examples. *)
Definition option_of (v : string) : ThemeOption := {| value := v |}.

Definition catalogABC : list ThemeOption := [option_of "A"; option_of "B"; option_of "C"].
Definition catalogABA : list ThemeOption := [option_of "A"; option_of "B"; option_of "A"].

Definition page_with (theme mode : string) : Page :=
  {| body_attrs := <["data-theme" := theme]> (<["data-mode" := mode]> ∅);
     body_classes := ["mode-" +:+ mode; "theme-" +:+ theme];
     theme_options := Some theme;
     mode_radios := [("default", bool_decide (mode = "default"));
                     ("slate", bool_decide (mode = "slate"))];
     mode_href := Some "";
     storage := ∅ |}.

End ThemePicker.

(** ** KeyboardShortcuts.tsx *)

Module KeyboardShortcuts.

(** The [Section] type of the component. *)
Inductive SectionName : Type := Appearance | Navigation | Timetable.

#[global] Instance SectionName_eq_dec : EqDecision SectionName.
Proof. solve_decision. Defined.

Definition APPEARANCE : SectionName := Appearance.
Definition NAVIGATION : SectionName := Navigation.
Definition TIMETABLE : SectionName := Timetable.

(** [type Shortcut = string | string[]]. *)
Inductive Shortcut : Type :=
| Key (pattern : string)
| Keys (alternatives : list string).

#[global] Instance Shortcut_eq_dec : EqDecision Shortcut.
Proof. solve_decision. Defined.

Record KeyBinding := {
  key : Shortcut;
  section : SectionName;
  description : string
}.

Definition THEME_NOTIFICATION_TIMEOUT : Z := 1000.

Inductive ColorScheme : Type := LIGHT_COLOR_SCHEME | DARK_COLOR_SCHEME.

#[global] Instance ColorScheme_eq_dec : EqDecision ColorScheme.
Proof. solve_decision. Defined.

(** The callbacks handed to Mousetrap, one constructor per function literal
    of the effect; the values a closure captures are its arguments.
    [Unbound] is the empty function that [Mousetrap.unbind] installs. *)
Inductive Action : Type :=
| HistoryPush (route : string)
| FocusGlobalSearch
| SetHelpShown (shown : bool)
| ToggleTimetableOrientation
| OpenDownloadMenu
| ToggleNightMode (colorScheme : ColorScheme)
| CycleThemeAndNotify (offset : Z)
| Unbound.

(** *** Mousetrap (external library)

    Its direct map from a bound combination to the callback bound last. *)

Definition patterns (k : Shortcut) : list string :=
  match k with
  | Key s => [s]
  | Keys l => l
  end.

(** [Mousetrap.bind(keys, callback)]: every combination of [keys] is bound
    to [callback], replacing an earlier callback of that combination. *)
Definition Mousetrap_bind (keys : Shortcut) (callback : Action)
    (m : gmap string Action) : gmap string Action :=
  foldl (fun m combination => <[combination := callback]> m) m (patterns keys).

(** [Mousetrap.unbind(keys)] is [bind(keys, function () {})]. *)
Definition Mousetrap_unbind (keys : Shortcut) (m : gmap string Action)
  : gmap string Action :=
  Mousetrap_bind keys Unbound m.

(** [Mousetrap.trigger(keys)]: the callback that runs when the combination
    or sequence [keys] has been typed. *)
Definition Mousetrap_trigger (keys : string) (m : gmap string Action)
  : option Action :=
  m !! keys.

(** *** The effect of the component *)

(** The [shortcuts] ref of the component together with the global Mousetrap
    instance. *)
Record Registry := {
  shortcuts : list KeyBinding;
  mousetrap : gmap string Action
}.

Definition bind (k : Shortcut) (s : SectionName) (d : string)
    (action : Action) (r : Registry) : Registry :=
  {| shortcuts := shortcuts r ++ [ {| key := k; description := d; section := s |} ];
     mousetrap := Mousetrap_bind k action (mousetrap r) |}.

Definition EASTER_EGG : string := "up up down down left right left right b a".

(** Body of the [useEffect] callback, run when the component mounts. *)
Definition effect (helpShown : bool) (colorScheme : ColorScheme)
    (r : Registry) : Registry :=
  let r := bind (Key "y") NAVIGATION "Go to today" (HistoryPush "/today") r in
  let r := bind (Key "t") NAVIGATION "Go to timetable" (HistoryPush "/timetable") r in
  let r := bind (Key "m") NAVIGATION "Go to course finder" (HistoryPush "/courses") r in
  let r := bind (Key "v") NAVIGATION "Go to venues page" (HistoryPush "/venues") r in
  let r := bind (Key "s") NAVIGATION "Go to settings" (HistoryPush "/settings") r in
  let r := bind (Key "/") NAVIGATION "Open global search" FocusGlobalSearch r in
  let r := bind (Key "?") NAVIGATION "Show this help" (SetHelpShown (negb helpShown)) r in
  let r := bind (Key "o") TIMETABLE "Switch timetable orientation"
             ToggleTimetableOrientation r in
  let r := bind (Key "d") TIMETABLE "Open download timetable menu" OpenDownloadMenu r in
  let r := bind (Key "x") APPEARANCE "Toggle Night Mode" (ToggleNightMode colorScheme) r in
  let r := bind (Key "z") APPEARANCE "Previous Theme" (CycleThemeAndNotify (-1)) r in
  let r := bind (Key "c") APPEARANCE "Next Theme" (CycleThemeAndNotify 1) r in
  {| shortcuts := shortcuts r;
     mousetrap := Mousetrap_bind (Key EASTER_EGG) (HistoryPush "/tetris") (mousetrap r) |}.

(** The function the effect returns, run when the component unmounts. *)
Definition cleanup (r : Registry) : Registry :=
  {| shortcuts := [];
     mousetrap :=
       foldl (fun m b => Mousetrap_unbind (key b) m) (mousetrap r) (shortcuts r) |}.

(** The registry before the component is mounted for the first time. *)
Definition unmounted (m : gmap string Action) : Registry :=
  {| shortcuts := []; mousetrap := m |}.

(** *** Rendering a shortcut *)

Definition is_lower (c : ascii) : bool :=
  let n := nat_of_ascii c in (97 <=? n)%nat && (n <=? 122)%nat.

Definition is_upper (c : ascii) : bool :=
  let n := nat_of_ascii c in (65 <=? n)%nat && (n <=? 90)%nat.

Definition is_digit (c : ascii) : bool :=
  let n := nat_of_ascii c in (48 <=? n)%nat && (n <=? 57)%nat.

(** The class [\w] of a regular expression. *)
Definition is_word (c : ascii) : bool :=
  is_lower c || is_upper c || is_digit c || bool_decide (c = "_"%char).

(** [c.toUpperCase()] for one character. *)
Definition toUpperCase (c : ascii) : ascii :=
  if is_lower c then ascii_of_nat (nat_of_ascii c - 32) else c.

(** [\b] between the character before a position ([None] at the start of
    the string) and the character after it. *)
Definition word_boundary (before : option ascii) (after : option ascii) : bool :=
  negb (bool_decide (from_option is_word false before
                     = from_option is_word false after)).

(** [s.replace(/\b([a-z])/, c => c.toUpperCase())], scanning [s] with
    [before] the character that precedes it: the first lower-case letter
    standing at a word boundary is replaced. *)
Fixpoint replace_word_start (before : option ascii) (s : string) : string :=
  match s with
  | EmptyString => EmptyString
  | String c rest =>
      if word_boundary before (Some c) && is_lower c
      then String (toUpperCase c) rest
      else String c (replace_word_start (Some c) rest)
  end.

Definition capitalize (s : string) : string := replace_word_start None s.






(** *** Grouping the shortcuts for the help dialog *)

(** lodash's [groupBy]: the result object keeps its keys in the order they
    were first assigned, so it is an association list here.  A value whose
    key is present is pushed on that key's array, otherwise the key is
    assigned a new one-element array. *)
Section GroupBy.
Context {A K : Type} `{EqDecision K}.
Variable iteratee : A -> K.

Fixpoint push_group (k : K) (x : A) (result : list (K * list A))
  : list (K * list A) :=
  match result with
  | [] => [(k, [x])]
  | (k', g) :: result' =>
      if decide (k' = k) then (k', g ++ [x]) :: result'
      else (k', g) :: push_group k x result'
  end.

Definition groupBy (collection : list A) : list (K * list A) :=
  foldl (fun result x => push_group (iteratee x) x result) [] collection.

(** The keys of a list in the order of their first occurrence. *)
Fixpoint first_seen (l : list K) : list K :=
  match l with
  | [] => []
  | k :: l' => k :: filter (fun k' => k' <> k) (first_seen l')
  end.

End GroupBy.

(** [const sections = groupBy(shortcuts.current, s => s.section)]. *)
Definition sections (r : Registry) : list (SectionName * list KeyBinding) :=
  groupBy section (shortcuts r).

(** *** The theme notification *)

Record Theme := { id : string; name : string }.

Record NotificationOptions := {
  timeout : option Z;
  overwritable : bool
}.

(** The Redux actions the handlers dispatch. *)
Inductive ReduxAction : Type :=
| cycleTheme (offset : Z)
| openNotification (message : string) (options : NotificationOptions)
| toggleTimetableOrientation
| selectColorScheme (preference : ColorScheme).

Section Store.

(** [data/themes.json]. *)
Variable themes : list Theme.
(** The Redux state, [state.theme.id] and the root reducer; they live in
    other files of the application. *)
Variable State : Type.
Variable theme_id : State -> string.
Variable reducer : State -> ReduxAction -> State.

(** The store: its current state, and the actions dispatched so far. *)
Record Store := {
  getState : State;
  dispatched : list ReduxAction
}.

Definition dispatch (a : ReduxAction) (s : Store) : Store :=
  {| getState := reducer (getState s) a;
     dispatched := dispatched s ++ [a] |}.

(** [themes.find(t => t.id === themeId)]. *)
Definition find_theme (themeId : string) : option Theme :=
  List.find (fun t => bool_decide (id t = themeId)) themes.

Definition notifyThemeChange (s : Store) : Store :=
  let themeId := theme_id (getState s) in
  match find_theme themeId with
  | Some theme =>
      dispatch
        (openNotification ("Theme switched to " +:+ name theme)
           {| timeout := Some THEME_NOTIFICATION_TIMEOUT; overwritable := true |})
        s
  | None => s
  end.

(** The handlers bound to [z] (offset [-1]) and [c] (offset [1]). *)
Definition cycleThemeHandler (offset : Z) (s : Store) : Store :=
  notifyThemeChange (dispatch (cycleTheme offset) s).

(** Modelled from the spec: [invertColorScheme] and
    [colorSchemeToPreference] of [utils/colorScheme] are not among the
    sources; toggling night mode inverts the light/dark preference. *)
Definition invertColorScheme (c : ColorScheme) : ColorScheme :=
  match c with
  | LIGHT_COLOR_SCHEME => DARK_COLOR_SCHEME
  | DARK_COLOR_SCHEME => LIGHT_COLOR_SCHEME
  end.

(** What running a callback does to the store; the callbacks that only
    navigate, move the focus or show the help leave it alone. *)
Definition runAction (a : Action) (s : Store) : Store :=
  match a with
  | ToggleTimetableOrientation => dispatch toggleTimetableOrientation s
  | ToggleNightMode colorScheme =>
      let newColorScheme := invertColorScheme colorScheme in
      let s := dispatch (selectColorScheme newColorScheme) s in
      dispatch
        (openNotification
           ("Night mode "
            +:+ (if decide (newColorScheme = DARK_COLOR_SCHEME) then "on" else "off"))
           {| timeout := None; overwritable := true |})
        s
  | CycleThemeAndNotify offset => cycleThemeHandler offset s
  | _ => s
  end.

(** The notifications among the actions dispatched after the first [n]. *)
Definition notifications_after (n : nat) (s : Store) : list string :=
  omap (fun a => match a with
                 | openNotification m _ => Some m
                 | _ => None
                 end) (drop n (dispatched s)).

End Store.

Arguments getState {State} _.
Arguments dispatched {State} _.
Arguments dispatch {State} reducer a s.
Arguments notifyThemeChange themes {State} theme_id reducer s.
Arguments cycleThemeHandler themes {State} theme_id reducer offset s.
Arguments runAction themes {State} theme_id reducer a s.
Arguments notifications_after {State} n s.

(** A store whose state is just the identifier of the theme, with a reducer
    that moves it along [themes] the way [selectNextTheme] does. *)
Definition sample_themes : list Theme :=
  [ {| id := "ashes"; name := "Ashes" |};
    {| id := "chalk"; name := "Chalk" |};
    {| id := "eighties"; name := "Eighties" |} ].

Definition sample_reducer (st : string) (a : ReduxAction) : string :=
  match a with
  | cycleTheme offset =>
      let ids := map id sample_themes in
      let len := Z.of_nat (length ids) in
      match js_rem (indexOf ids (Some st) + offset + len) len with
      | Some i => default st (js_index ids i)
      | None => st
      end
  | _ => st
  end.

Definition sample_store (themeId : string) : Store string :=
  {| getState := themeId; dispatched := [] |}.

(** The bindings of the grouping example. *)
Definition sample_bindings : list KeyBinding :=
  [ {| key := Key "y"; section := Navigation; description := "Go to today" |};
    {| key := Key "x"; section := Appearance; description := "Toggle Night Mode" |};
    {| key := Key "t"; section := Navigation; description := "Go to timetable" |} ].


End KeyboardShortcuts.

(** ** Repeated and observed use of the theme picker *)

Module ThemeCycling.
Import ThemePicker.

(** [count] calls of [selectNextTheme] in a row; a call that throws ends
    the run. *)
Fixpoint selectNextTheme_times (themeOptions : list ThemeOption)
    (direction : string) (count : nat) (p : Page) : outcome Page :=
  match count with
  | O => Returns p
  | S count' =>
      match selectNextTheme themeOptions direction p with
      | Returns p' => selectNextTheme_times themeOptions direction count' p'
      | TypeError => TypeError
      end
  end.


(** The stored theme, respectively mode, is the one [body] shows. *)
Definition theme_persisted (p : Page) : Prop :=
  storage p !! "theme" = Some (currentTheme p).

Definition mode_persisted (p : Page) : Prop :=
  storage p !! "mode" = Some (currentMode p).

End ThemeCycling.

(** ** The preferences view

    The view that owns the preference form: its [savePreference] drives
    the theme picker. *)

Module PreferencesView.
Import ThemePicker.

(** The page, the messages shown with [alert], and the values handed to
    [$('#faculty').val] (with [None] for [null]), both in order. *)
Record View := {
  page : Page;
  alerts : list string;
  faculty_vals : list jsval
}.

(** [localforage.getItem(key, callback)]: the callback receives the stored
    value, or [null] when nothing is stored. *)
Definition getItem (key : string) (p : Page) : jsval :=
  default None (storage p !! key).

(** [localforage.setItem(key, value)]. *)
Definition setItem (key : string) (value : string) (p : Page) : Page :=
  {| body_attrs := body_attrs p;
     body_classes := body_classes p;
     theme_options := theme_options p;
     mode_radios := mode_radios p;
     mode_href := mode_href p;
     storage := <[key := Some value]> (storage p) |}.

(** [savePreference].  The store answers [getItem] and carries out
    [setItem] in the order of the calls, so the callback of the refused
    case sees the value stored when it was asked for. *)
Definition savePreference (property value : string) (v : View) : View :=
  if decide (property = "faculty" /\ value = "default") then
    {| page := page v;
       alerts := alerts v ++ ["You have to select a faculty."];
       faculty_vals := faculty_vals v ++ [getItem property (page v)] |}
  else
    let p := setItem property value (page v) in
    {| page :=
         if decide (property = "theme") then applyTheme (Some value) p
         else if decide (property = "mode") then toggleMode p
         else p;
       alerts := alerts v;
       faculty_vals := faculty_vals v |}.

(** A view over a page, with nothing alerted yet. *)
Definition view_of (p : Page) : View :=
  {| page := p; alerts := []; faculty_vals := [] |}.

End PreferencesView.

(** ** The mounted component *)

Module ShortcutLifecycle.
Import KeyboardShortcuts.

(** The patterns the effect binds: the twelve listed keys and the
    sequence. *)
Definition bound_by_effect : list string :=
  ["y"; "t"; "m"; "v"; "s"; "/"; "?"; "o"; "d"; "x"; "z"; "c"; EASTER_EGG].

End ShortcutLifecycle.

(** * Properties *)

(** ** Array lookup and [indexOf] *)

Section IndexOf.
Implicit Types (arr : list string) (x : jsval) (i : Z).


Lemma indexOf_from_first arr y i (n : nat) :
  arr !! n = Some y ->
  (forall m, (m < n)%nat -> arr !! m <> Some y) ->
  indexOf_from arr (Some y) i = i + Z.of_nat n.
Proof.
  revert i n. induction arr as [|z arr IH]; intros i n Hn Hfirst; [done|].
  simpl. destruct (decide (Some y = Some z)) as [Heq|Hne].
  - destruct n as [|n]; [lia|].
    exfalso. apply (Hfirst 0%nat); [lia|]. simpl. congruence.
  - destruct n as [|n]; simpl in Hn; [congruence|].
    rewrite (IH (i + 1) n Hn); [lia|].
    intros m Hm. apply (Hfirst (S m)). lia.
Qed.

Lemma indexOf_NoDup arr y (n : nat) :
  NoDup arr -> arr !! n = Some y -> indexOf arr (Some y) = Z.of_nat n.
Proof.
  intros Hnd Hn. unfold indexOf.
  rewrite (indexOf_from_first arr y 0 n Hn); [lia|].
  intros m Hm Hm'. pose proof (NoDup_lookup _ _ _ _ Hnd Hm' Hn). lia.
Qed.


Lemma js_index_nat {A} (l : list A) (n : nat) : js_index l (Z.of_nat n) = l !! n.
Proof.
  unfold js_index. destruct (decide (0 <= Z.of_nat n)); [|lia].
  by rewrite Nat2Z.id.
Qed.

End IndexOf.

(** ** themePicker.js *)

Module ThemePickerProps.
Import ThemePicker.

Lemma data_mode_ne_theme : "data-mode" <> "data-theme".
Proof. discriminate. Qed.

Lemma currentTheme_applyTheme t p : currentTheme (applyTheme (Some t) p) = Some t.
Proof. unfold currentTheme, applyTheme, updateAppearance; simpl. apply lookup_insert_eq. Qed.

Lemma currentMode_applyTheme v p : currentMode (applyTheme v p) = currentMode p.
Proof.
  unfold currentMode, applyTheme, updateAppearance, attr_set; simpl.
  destruct v; [|done]. by apply lookup_insert_ne.
Qed.

Lemma currentMode_toggleMode p :
  currentMode (toggleMode p)
  = Some (if decide (currentMode p = Some "default") then "slate" else "default").
Proof. unfold currentMode, toggleMode, updateAppearance; simpl. apply lookup_insert_eq. Qed.

Lemma allThemes_lookup opts (n : nat) :
  allThemes opts !! n = value <$> opts !! n.
Proof. unfold allThemes. apply list_lookup_fmap. Qed.

(** The index computed by [selectNextTheme] and the theme it applies. *)
Lemma selectNextTheme_index opts direction p :
  let len := Z.of_nat (length opts) in
  let index := indexOf (allThemes opts) (currentTheme p) in
  let delta := if decide (direction = "Left") then -1 else 1 in
  0 < len -> 0 <= index + delta + len ->
  exists o,
    opts !! Z.to_nat ((index + delta + len) mod len) = Some o /\
    selectNextTheme opts direction p = Returns (applyTheme (Some (value o)) p).
Proof.
  intros len index delta Hlen Hnn.
  assert (Hrange : 0 <= (index + delta + len) mod len < len)
    by (apply Z.mod_pos_bound; lia).
  destruct (lookup_lt_is_Some_2 opts (Z.to_nat ((index + delta + len) mod len)))
    as [o Ho]; [lia|].
  exists o. split; [done|].
  unfold selectNextTheme, js_rem.
  replace (length (allThemes opts)) with (length opts)
    by (symmetry; apply length_map).
  fold len. fold index. fold delta.
  destruct (decide (len = 0)); [lia|].
  rewrite Z.rem_mod_nonneg by lia.
  rewrite <- (Z2Nat.id ((index + delta + len) mod len)) at 1 by lia.
  by rewrite js_index_nat, Ho.
Qed.

Lemma selectNextTheme_at opts direction p t (n : nat) o :
  NoDup (allThemes opts) ->
  currentTheme p = Some t ->
  allThemes opts !! n = Some t ->
  opts !! Z.to_nat ((Z.of_nat n + (if decide (direction = "Left") then -1 else 1)
                     + Z.of_nat (length opts)) mod Z.of_nat (length opts)) = Some o ->
  selectNextTheme opts direction p = Returns (applyTheme (Some (value o)) p).
Proof.
  intros Hnd Hcur Hn Ho.
  pose proof (lookup_lt_Some _ _ _ Hn) as Hlt.
  unfold allThemes in Hlt. rewrite length_map in Hlt.
  destruct (selectNextTheme_index opts direction p) as (o' & Ho' & ->).
  - lia.
  - rewrite Hcur, (indexOf_NoDup _ _ _ Hnd Hn). destruct (decide _); lia.
  - rewrite Hcur, (indexOf_NoDup _ _ _ Hnd Hn) in Ho'. congruence.
Qed.

(** Stepping forward and then backward over [len] slots returns to the
    slot one started from. *)
Lemma wrap_forward_backward (n len : Z) :
  0 <= n < len -> (((n + 1 + len) mod len) + -1 + len) mod len = n.
Proof.
  intros Hn. destruct (decide (n + 1 = len)) as [Heq|Hne].
  - replace (n + 1 + len) with (0 + 2 * len) by lia.
    rewrite Z_mod_plus_full, Z.mod_0_l by lia.
    rewrite Z.mod_small; lia.
  - replace (n + 1 + len) with (n + 1 + 1 * len) by lia.
    rewrite Z_mod_plus_full, (Z.mod_small (n + 1)) by lia.
    replace (n + 1 + -1 + len) with (n + 1 * len) by lia.
    rewrite Z_mod_plus_full. rewrite Z.mod_small; lia.
Qed.

Lemma NoDup_catalogABC : NoDup (allThemes catalogABC).
Proof. apply (bool_decide_unpack _). by vm_compute. Qed.

(** C4, as amended: in a catalog of length at least 2 whose theme values
    are pairwise distinct, from a current theme that is in the catalog,
    [selectNextTheme] applies the theme at index
    [(index + delta + length) % length], a step forward (any direction but
    ['Left']) followed by a step backward (['Left']) restores the current
    theme, and in the catalog [A, B, C] with current [B] forward gives [C],
    forward again [A], and backward from [A] gives [C]. *)
Theorem selectNextTheme_forward_backward :
  (forall opts p t forward,
      NoDup (allThemes opts) -> (2 <= length opts)%nat ->
      currentTheme p = Some t -> t ∈ allThemes opts -> forward <> "Left" ->
      (forall direction, exists o,
          opts !! Z.to_nat
            ((indexOf (allThemes opts) (currentTheme p)
              + (if decide (direction = "Left") then -1 else 1)
              + Z.of_nat (length opts)) mod Z.of_nat (length opts)) = Some o /\
          selectNextTheme opts direction p
          = Returns (applyTheme (Some (value o)) p)) /\
      exists p1 p2,
        selectNextTheme opts forward p = Returns p1 /\
        selectNextTheme opts "Left" p1 = Returns p2 /\
        currentTheme p2 = Some t) /\
  (forall p forward,
      forward <> "Left" -> currentTheme p = Some "B" ->
      exists p1 p2 p3,
        selectNextTheme catalogABC forward p = Returns p1 /\
        currentTheme p1 = Some "C" /\
        selectNextTheme catalogABC forward p1 = Returns p2 /\
        currentTheme p2 = Some "A" /\
        selectNextTheme catalogABC "Left" p2 = Returns p3 /\
        currentTheme p3 = Some "C").
Proof.
  split.
  - intros opts p t forward Hnd Hlen Hcur Hin Hfwd.
    apply list_elem_of_lookup in Hin as [n Hn].
    pose proof (lookup_lt_Some _ _ _ Hn) as Hlt.
    unfold allThemes in Hlt. rewrite length_map in Hlt.
    pose proof (indexOf_NoDup _ _ _ Hnd Hn) as Hidx.
    split.
    + intros direction. apply selectNextTheme_index; [lia|].
      rewrite Hcur, Hidx. destruct (decide _); lia.
    + destruct (selectNextTheme_index opts forward p) as (o1 & Ho1 & Hstep1).
      { lia. } { rewrite Hcur, Hidx. destruct (decide _); lia. }
      rewrite Hcur, Hidx in Ho1.
      destruct (decide (forward = "Left")) as [|_]; [done|].
      set (m := (Z.of_nat n + 1 + Z.of_nat (length opts))
                mod Z.of_nat (length opts)) in *.
      assert (Hm : 0 <= m < Z.of_nat (length opts))
        by (apply Z.mod_pos_bound; lia).
      assert (Hback : (Z.of_nat (Z.to_nat m) + -1 + Z.of_nat (length opts))
                      mod Z.of_nat (length opts) = Z.of_nat n).
      { rewrite Z2Nat.id by lia. apply wrap_forward_backward. lia. }
      assert (Ht : exists o, opts !! n = Some o /\ value o = t).
      { rewrite allThemes_lookup in Hn.
        destruct (opts !! n) as [o|]; simplify_eq/=. by exists o. }
      destruct Ht as (o & Ho & Hval).
      exists (applyTheme (Some (value o1)) p), (applyTheme (Some (value o)) (applyTheme (Some (value o1)) p)).
      split; [done|]. split.
      * apply (selectNextTheme_at opts "Left" _ (value o1) (Z.to_nat m)).
        -- done.
        -- apply currentTheme_applyTheme.
        -- by rewrite allThemes_lookup, Ho1.
        -- destruct (decide ("Left" = "Left")); [|done].
           by rewrite Hback, Nat2Z.id.
      * by rewrite currentTheme_applyTheme, Hval.
  - intros p forward Hfwd Hcur.
    exists (applyTheme (Some "C") p),
           (applyTheme (Some "A") (applyTheme (Some "C") p)),
           (applyTheme (Some "C") (applyTheme (Some "A") (applyTheme (Some "C") p))).
    split; [|split; [|split; [|split; [|split]]]];
      try apply currentTheme_applyTheme.
    + apply (selectNextTheme_at catalogABC forward p "B" 1 (option_of "C"));
        [apply NoDup_catalogABC|done|done|].
      by destruct (decide (forward = "Left")).
    + apply (selectNextTheme_at catalogABC forward _ "C" 2 (option_of "A"));
        [apply NoDup_catalogABC|apply currentTheme_applyTheme|done|].
      by destruct (decide (forward = "Left")).
    + apply (selectNextTheme_at catalogABC "Left" _ "A" 0 (option_of "C"));
        [apply NoDup_catalogABC|apply currentTheme_applyTheme|done|done].
Qed.

Lemma selectNextTheme_forward_backward_witness :
  (exists p1 p2,
      selectNextTheme catalogABC "Right" (page_with "B" "default") = Returns p1 /\
      selectNextTheme catalogABC "Left" p1 = Returns p2 /\
      currentTheme p2 = Some "B") /\
  (exists p1 p2 p3,
      selectNextTheme catalogABC "Right" (page_with "B" "default") = Returns p1 /\
      currentTheme p1 = Some "C" /\
      selectNextTheme catalogABC "Right" p1 = Returns p2 /\
      currentTheme p2 = Some "A" /\
      selectNextTheme catalogABC "Left" p2 = Returns p3 /\
      currentTheme p3 = Some "C").
Proof.
  split.
  - apply (proj1 selectNextTheme_forward_backward
             catalogABC (page_with "B" "default") "B" "Right").
    + apply NoDup_catalogABC.
    + simpl; lia.
    + reflexivity.
    + apply (bool_decide_unpack _). by vm_compute.
    + discriminate.
  - apply (proj2 selectNextTheme_forward_backward (page_with "B" "default") "Right").
    + discriminate.
    + reflexivity.
Defined.

(** With a repeated theme value the round trip of C4 fails: in [A, B, A]
    with current [B], forward applies the second [A], whose [indexOf] is 0,
    so backward applies index 2, again [A]. *)
Lemma selectNextTheme_repeated_value_no_round_trip :
  (2 <= length catalogABA)%nat /\
  "B" ∈ allThemes catalogABA /\
  currentTheme (page_with "B" "default") = Some "B" /\
  exists p1 p2,
    selectNextTheme catalogABA "Right" (page_with "B" "default") = Returns p1 /\
    selectNextTheme catalogABA "Left" p1 = Returns p2 /\
    currentTheme p2 = Some "A" /\
    currentTheme p2 <> Some "B".
Proof.
  split; [simpl; lia|]. split; [apply (bool_decide_unpack _); by vm_compute|].
  split; [reflexivity|].
  eexists _, _. split; [reflexivity|]. split; [reflexivity|].
  split; [reflexivity|discriminate].
Qed.





(** C8: [toggleMode] always leaves the mode at one of the two literals, and
    from a mode that is ['default'] or ['slate'] one call gives the other
    literal and two calls give back the starting mode. *)
Theorem toggleMode_involution p m :
  currentMode p = Some m ->
  m = "default" \/ m = "slate" ->
  (currentMode (toggleMode p) = Some "default"
   \/ currentMode (toggleMode p) = Some "slate") /\
  currentMode (toggleMode p) <> Some m /\
  currentMode (toggleMode (toggleMode p)) = Some m.
Proof.
  intros Hm Hlit. rewrite !currentMode_toggleMode, Hm.
  destruct Hlit as [-> | ->].
  - destruct (decide (Some "default" = Some "default")); [|done].
    destruct (decide (Some "slate" = Some "default")); [done|].
    split; [by right|]. split; done.
  - destruct (decide (Some "slate" = Some "default")); [done|].
    destruct (decide (Some "default" = Some "default")); [|done].
    split; [by left|]. split; done.
Qed.

Lemma toggleMode_involution_witness :
  (currentMode (toggleMode (page_with "A" "slate")) = Some "default"
   \/ currentMode (toggleMode (page_with "A" "slate")) = Some "slate") /\
  currentMode (toggleMode (page_with "A" "slate")) <> Some "slate" /\
  currentMode (toggleMode (toggleMode (page_with "A" "slate"))) = Some "slate".
Proof.
  apply (toggleMode_involution (page_with "A" "slate") "slate").
  - reflexivity.
  - right; reflexivity.
Defined.

(** Whatever [data-mode] holds, the mode after a call is a literal. *)
Lemma toggleMode_literal p :
  currentMode (toggleMode p) = Some "default"
  \/ currentMode (toggleMode p) = Some "slate".
Proof. rewrite currentMode_toggleMode. destruct (decide _); auto. Qed.

(** The loop of [selectRandomTheme] is left at the first draw that picks
    something other than the current theme. *)
Lemma randomLoop_leaves opts draws cur (k n : nat) :
  allThemes opts !! draws (n + k)%nat <> cur ->
  exists j, (j <= k)%nat /\
    allThemes opts !! draws (n + j)%nat <> cur /\
    forall fuel, (j < fuel)%nat ->
      randomLoop opts draws cur fuel n = Some (allThemes opts !! draws (n + j)%nat).
Proof.
  revert n. induction k as [|k IH]; intros n Hk.
  - exists 0%nat. split; [lia|]. split; [done|].
    intros [|fuel] Hfuel; [lia|]. simpl.
    rewrite Nat.add_0_r in *. by destruct (decide _).
  - destruct (decide (allThemes opts !! draws n = cur)) as [Heq|Hne].
    + destruct (IH (S n)) as (j & Hj & Hdiff & Hrun).
      { by replace (S n + k)%nat with (n + S k)%nat by lia. }
      exists (S j). split; [lia|].
      replace (n + S j)%nat with (S n + j)%nat by lia.
      split; [done|].
      intros [|fuel] Hfuel; [lia|]. simpl.
      destruct (decide _); [|done]. apply Hrun. lia.
    + exists 0%nat. split; [lia|]. rewrite Nat.add_0_r.
      split; [done|].
      intros [|fuel] Hfuel; [lia|]. simpl. by destruct (decide _).
Qed.





End ThemePickerProps.

(** ** KeyboardShortcuts.tsx *)

Module KeyboardShortcutsProps.
Import KeyboardShortcuts.

(** *** Mousetrap's table *)

Lemma Mousetrap_bind_trigger keys callback m p :
  Mousetrap_trigger p (Mousetrap_bind keys callback m)
  = if decide (p ∈ patterns keys) then Some callback else Mousetrap_trigger p m.
Proof.
  unfold Mousetrap_trigger, Mousetrap_bind.
  generalize (patterns keys) as l. intros l. revert m.
  induction l as [|q l IH]; intros m; simpl.
  - destruct (decide (p ∈ [])) as [Hin|_]; [|done]. by apply elem_of_nil in Hin.
  - rewrite IH. destruct (decide (p ∈ l)) as [Hin|Hnin].
    + destruct (decide (p ∈ q :: l)) as [|Hn]; [done|].
      exfalso. apply Hn. by right.
    + destruct (decide (p = q)) as [->|Hne].
      * rewrite lookup_insert_eq.
        destruct (decide (q ∈ q :: l)) as [|Hn]; [done|].
        exfalso. apply Hn. left.
      * rewrite lookup_insert_ne by done.
        destruct (decide (p ∈ q :: l)) as [Hin|]; [|done].
        apply elem_of_cons in Hin as [?|?]; done.
Qed.

(** The table after unbinding the keys of a list of bindings. *)
Lemma unbind_all_trigger (bs : list KeyBinding) m p :
  Mousetrap_trigger p (foldl (fun m b => Mousetrap_unbind (key b) m) m bs)
  = if decide (p ∈ concat (map (fun b => patterns (key b)) bs))
    then Some Unbound else Mousetrap_trigger p m.
Proof.
  revert m. induction bs as [|b bs IH]; intros m; simpl.
  - destruct (decide (p ∈ [])) as [Hin|_]; [|done]. by apply elem_of_nil in Hin.
  - rewrite IH. unfold Mousetrap_unbind. rewrite Mousetrap_bind_trigger.
    destruct (decide (p ∈ concat _)) as [Hin|Hnin].
    + destruct (decide (p ∈ _ ++ _)) as [|Hn]; [done|].
      exfalso. apply Hn. apply elem_of_app. by right.
    + destruct (decide (p ∈ patterns (key b))) as [Hin|Hnin'].
      * destruct (decide (p ∈ _ ++ _)) as [|Hn]; [done|].
        exfalso. apply Hn. apply elem_of_app. by left.
      * destruct (decide (p ∈ _ ++ _)) as [Hin|]; [|done].
        apply elem_of_app in Hin as [?|?]; done.
Qed.

Lemma elem_of_concat_map {A B} (f : A -> list B) (l : list A) x y :
  x ∈ l -> y ∈ f x -> y ∈ concat (map f l).
Proof.
  induction 1 as [x l|x z l _ IH]; intros Hy; simpl; apply elem_of_app.
  - by left.
  - right. by apply IH.
Qed.

(** Every pattern recorded in [shortcuts] is unbound by [cleanup]. *)
Lemma cleanup_unbinds r b p :
  b ∈ shortcuts r -> p ∈ patterns (key b) ->
  Mousetrap_trigger p (mousetrap (cleanup r)) = Some Unbound.
Proof.
  intros Hb Hp. unfold cleanup; simpl. rewrite unbind_all_trigger.
  destruct (decide _) as [|Hn]; [done|].
  exfalso. apply Hn. by apply (elem_of_concat_map _ _ b).
Qed.

(** C3, as amended: [bind] signals nothing.  It appends the binding to the
    listed shortcuts and makes its callback the one every pattern of the key
    triggers, replacing whatever was bound to that pattern before (the last
    registration wins); other patterns keep their callbacks, so the rest of
    a batch is registered as well. *)
Theorem bind_last_registration_wins k sec d action r :
  shortcuts (bind k sec d action r)
  = shortcuts r ++ [ {| key := k; section := sec; description := d |} ] /\
  (forall p, p ∈ patterns k ->
     Mousetrap_trigger p (mousetrap (bind k sec d action r)) = Some action) /\
  (forall p, p ∉ patterns k ->
     Mousetrap_trigger p (mousetrap (bind k sec d action r))
     = Mousetrap_trigger p (mousetrap r)).
Proof.
  split; [done|]. split; intros p Hp; simpl; rewrite Mousetrap_bind_trigger;
    by destruct (decide _).
Qed.

Lemma bind_last_registration_wins_witness :
  Mousetrap_trigger "y"
    (mousetrap (bind (Key "y") NAVIGATION "Go elsewhere" (HistoryPush "/elsewhere")
                  (effect false LIGHT_COLOR_SCHEME (unmounted ∅))))
  = Some (HistoryPush "/elsewhere") /\
  Mousetrap_trigger "t"
    (mousetrap (bind (Key "y") NAVIGATION "Go elsewhere" (HistoryPush "/elsewhere")
                  (effect false LIGHT_COLOR_SCHEME (unmounted ∅))))
  = Mousetrap_trigger "t" (mousetrap (effect false LIGHT_COLOR_SCHEME (unmounted ∅))).
Proof.
  split.
  - apply (proj1 (proj2 (bind_last_registration_wins (Key "y") NAVIGATION
                           "Go elsewhere" (HistoryPush "/elsewhere")
                           (effect false LIGHT_COLOR_SCHEME (unmounted ∅))))).
    simpl. left.
  - apply (proj2 (proj2 (bind_last_registration_wins (Key "y") NAVIGATION
                           "Go elsewhere" (HistoryPush "/elsewhere")
                           (effect false LIGHT_COLOR_SCHEME (unmounted ∅))))).
    simpl. intros Hin. apply list_elem_of_singleton in Hin. discriminate.
Defined.

(** Binding [y] again while the mounted component holds it is accepted: the
    second callback is installed in place of the first and the pattern is
    listed twice, which refutes C3 as stated. *)
Lemma bind_duplicate_is_installed :
  Mousetrap_trigger "y" (mousetrap (effect false LIGHT_COLOR_SCHEME (unmounted ∅)))
  = Some (HistoryPush "/today") /\
  Mousetrap_trigger "y"
    (mousetrap (bind (Key "y") NAVIGATION "Go elsewhere" (HistoryPush "/elsewhere")
                  (effect false LIGHT_COLOR_SCHEME (unmounted ∅))))
  = Some (HistoryPush "/elsewhere") /\
  length (filter (fun b => key b = Key "y")
            (shortcuts (bind (Key "y") NAVIGATION "Go elsewhere"
                          (HistoryPush "/elsewhere")
                          (effect false LIGHT_COLOR_SCHEME (unmounted ∅))))) = 2%nat.
Proof. split; [|split]; by vm_compute. Qed.

Lemma effect_binds_easter_egg helpShown colorScheme r :
  Mousetrap_trigger EASTER_EGG (mousetrap (effect helpShown colorScheme r))
  = Some (HistoryPush "/tetris").
Proof.
  unfold effect. cbv zeta. cbn [mousetrap].
  rewrite Mousetrap_bind_trigger.
  destruct (decide _) as [|Hn]; [done|]. exfalso. apply Hn. simpl. left.
Qed.

Lemma effect_patterns helpShown colorScheme m :
  concat (map (fun b => patterns (key b))
            (shortcuts (effect helpShown colorScheme (unmounted m))))
  = ["y"; "t"; "m"; "v"; "s"; "/"; "?"; "o"; "d"; "x"; "z"; "c"].
Proof. reflexivity. Qed.

(** C1 does not hold of the chord sequence.  The effect binds the sequence
    [up up down down left right left right b a] with [Mousetrap.bind]
    directly, so it is not recorded in [shortcuts], and the function run on
    unmount, which unbinds the recorded keys only, leaves it bound: typing
    the sequence after teardown, even after a second teardown, still runs
    the callback the unmounted component installed.  (The keys registered
    through [bind] are all unbound, see [cleanup_unbinds].) *)
Theorem cleanup_leaves_easter_egg helpShown colorScheme m :
  shortcuts (cleanup (effect helpShown colorScheme (unmounted m))) = [] /\
  Mousetrap_trigger "y"
    (mousetrap (cleanup (effect helpShown colorScheme (unmounted m))))
  = Some Unbound /\
  Mousetrap_trigger EASTER_EGG
    (mousetrap (cleanup (effect helpShown colorScheme (unmounted m))))
  = Some (HistoryPush "/tetris") /\
  Mousetrap_trigger EASTER_EGG
    (mousetrap (cleanup (cleanup (effect helpShown colorScheme (unmounted m)))))
  = Some (HistoryPush "/tetris").
Proof.
  assert (Hkept :
    Mousetrap_trigger EASTER_EGG
      (mousetrap (cleanup (effect helpShown colorScheme (unmounted m))))
    = Some (HistoryPush "/tetris")).
  { unfold cleanup. cbn [mousetrap]. rewrite unbind_all_trigger, effect_patterns.
    destruct (decide _) as [Hin|_]; [|apply effect_binds_easter_egg].
    apply (bool_decide_pack _) in Hin. by vm_compute in Hin. }
  split; [done|]. split; [|split; [done|]].
  - unfold cleanup at 1. cbn [mousetrap].
    rewrite unbind_all_trigger, effect_patterns.
    destruct (decide _) as [|Hn]; [done|]. exfalso. apply Hn. left.
  - unfold cleanup at 1. cbn [mousetrap]. rewrite unbind_all_trigger.
    cbn [shortcuts cleanup map concat].
    destruct (decide _) as [Hin|_]; [|done]. by apply elem_of_nil in Hin.
Qed.

(** *** [groupBy] *)

Section GroupByProps.
Context {A K : Type} `{EqDecision K}.
Variable f : A -> K.
Implicit Types (l : list A) (ks : list K) (k : K) (x : A).

Lemma elem_of_first_seen k ks : k ∈ first_seen ks <-> k ∈ ks.
Proof.
  induction ks as [|a ks IH]; simpl; [done|].
  rewrite !elem_of_cons, list_elem_of_filter, IH.
  destruct (decide (k = a)); tauto.
Qed.

Lemma filter_none (P : A -> Prop) `{forall x, Decision (P x)} l :
  (forall x, x ∈ l -> ~ P x) -> filter P l = [].
Proof.
  intros Hno. destruct (filter P l) as [|y l'] eqn:Hf; [done|].
  assert (Hy : y ∈ filter P l) by (rewrite Hf; left).
  apply list_elem_of_filter in Hy as [HP Hin]. by destruct (Hno y Hin).
Qed.

Lemma NoDup_first_seen ks : NoDup (first_seen ks).
Proof.
  induction ks as [|a ks IH]; simpl; constructor.
  - rewrite list_elem_of_filter. tauto.
  - by apply NoDup_filter.
Qed.

Lemma first_seen_snoc ks k :
  first_seen (ks ++ [k])
  = if decide (k ∈ ks) then first_seen ks else first_seen ks ++ [k].
Proof.
  induction ks as [|a ks IH]; simpl.
  - destruct (decide (k ∈ [])) as [Hin|_]; [|done]. by apply elem_of_nil in Hin.
  - rewrite IH. destruct (decide (k ∈ ks)) as [Hin|Hnin].
    + destruct (decide (k ∈ a :: ks)) as [|Hn]; [done|].
      exfalso. apply Hn. by right.
    + rewrite filter_app, list.filter_singleton by exact [].
      destruct (decide (k = a)) as [->|Hne].
      * destruct (decide (a <> a)); [done|].
        destruct (decide (a ∈ a :: ks)) as [|Hn]; [by rewrite app_nil_r|].
        exfalso. apply Hn. left.
      * destruct (decide (k <> a)); [|done].
        destruct (decide (k ∈ a :: ks)) as [Hin|]; [|done].
        apply elem_of_cons in Hin as [?|?]; done.
Qed.

(** Pushing a value on a table that has one entry per key. *)
Lemma push_group_map (G : K -> list A) k x ks :
  NoDup ks ->
  push_group k x (map (fun k' => (k', G k')) ks)
  = if decide (k ∈ ks)
    then map (fun k' => (k', if decide (k' = k) then G k' ++ [x] else G k')) ks
    else map (fun k' => (k', G k')) ks ++ [(k, [x])].
Proof.
  induction 1 as [|a ks Ha Hnd IH]; simpl.
  - destruct (decide (k ∈ [])) as [Hin|_]; [|done]. by apply elem_of_nil in Hin.
  - destruct (decide (a = k)) as [->|Hne].
    + destruct (decide (k ∈ k :: ks)) as [_|Hn]; [|exfalso; apply Hn; left].
      f_equal. apply map_ext_in. intros k' Hk'%list_elem_of_In.
      destruct (decide (k' = k)) as [->|]; done.
    + rewrite IH. destruct (decide (k ∈ ks)) as [Hin|Hnin].
      * destruct (decide (k ∈ a :: ks)) as [|Hn]; [done|].
        exfalso. apply Hn. by right.
      * destruct (decide (k ∈ a :: ks)) as [Hin|]; [|done].
        apply elem_of_cons in Hin as [?|?]; [congruence|done].
Qed.

(** The object [groupBy] builds, in closed form: one entry per key in the
    order the keys are first seen, holding the values of that key in the
    order of the collection. *)
Lemma groupBy_closed_form l :
  groupBy f l
  = map (fun k => (k, filter (fun x => f x = k) l)) (first_seen (map f l)).
Proof.
  induction l as [|x l IH] using rev_ind; [done|].
  unfold groupBy in *. rewrite foldl_snoc, IH, map_app. simpl map.
  rewrite push_group_map by apply NoDup_first_seen.
  rewrite first_seen_snoc.
  assert (Hmem : f x ∈ first_seen (map f l) <-> f x ∈ map f l)
    by apply elem_of_first_seen.
  destruct (decide (f x ∈ first_seen (map f l))) as [Hin|Hnin];
    destruct (decide (f x ∈ map f l)) as [Hin'|Hnin']; try tauto.
  - apply map_ext. intros k. rewrite filter_app, list.filter_singleton by exact [].
    destruct (decide (k = f x)) as [->|Hne].
    + by destruct (decide (f x = f x)).
    + destruct (decide (f x = k)); [congruence|by rewrite app_nil_r].
  - rewrite map_app. simpl. f_equal.
    + apply map_ext_in. intros k Hk%list_elem_of_In.
      rewrite filter_app, list.filter_singleton by exact [].
      destruct (decide (f x = k)) as [<-|]; [done|by rewrite app_nil_r].
    + rewrite filter_app, list.filter_singleton by exact [].
      destruct (decide (f x = f x)); [|done].
      replace (filter (fun x0 => f x0 = f x) l) with (@nil A); [done|].
      symmetry. apply filter_none.
      intros y Hy Heq. apply Hnin'. rewrite <- Heq. by apply list_elem_of_fmap_2.
Qed.

End GroupByProps.

(** C6: the [sections] of the help dialog group the shortcuts by section.
    The sections come in the order in which they are first seen, every
    section that occurs has exactly one entry, an entry holds the bindings
    of its section in their original order (so it is never empty), equal
    lists give equal groupings, and the bindings of the example are grouped
    as Navigation: y, t and Appearance: x.  The grouping is a value computed
    from the list, which it leaves as it is. *)
Theorem sections_grouping :
  (forall r,
      map fst (sections r) = first_seen (map section (shortcuts r)) /\
      NoDup (map fst (sections r)) /\
      (forall s grp,
          (s, grp) ∈ sections r <->
          s ∈ map section (shortcuts r) /\
          grp = filter (fun b => section b = s) (shortcuts r)) /\
      (forall s grp, (s, grp) ∈ sections r -> grp <> [])) /\
  (forall r1 r2, shortcuts r1 = shortcuts r2 -> sections r1 = sections r2) /\
  map (fun e => (fst e, map key (snd e))) (groupBy section sample_bindings)
  = [(Navigation, [Key "y"; Key "t"]); (Appearance, [Key "x"])].
Proof.
  split; [|split; [|reflexivity]].
  - intros r. unfold sections.
    assert (Hkeys : map fst (groupBy section (shortcuts r))
                    = first_seen (map section (shortcuts r))).
    { rewrite groupBy_closed_form, map_map. simpl. apply map_id. }
    assert (Helem : forall s grp,
               (s, grp) ∈ groupBy section (shortcuts r) <->
               s ∈ map section (shortcuts r) /\
               grp = filter (fun b => section b = s) (shortcuts r)).
    { intros s grp. rewrite groupBy_closed_form. split.
      - intros (k & Heq & Hk)%list_elem_of_fmap. simplify_eq.
        split; [by apply elem_of_first_seen|done].
      - intros [Hs ->]. apply list_elem_of_fmap. exists s.
        split; [done|by apply elem_of_first_seen]. }
    split; [done|]. split; [rewrite Hkeys; apply NoDup_first_seen|].
    split; [done|].
    intros s grp [Hs ->]%Helem Hnil.
    apply list_elem_of_fmap in Hs as (b & -> & Hb).
    by apply (filter_nil_not_elem_of _ _ b) in Hnil.
  - intros r1 r2 Heq. unfold sections. by rewrite Heq.
Qed.

Lemma sections_grouping_witness :
  (Appearance, [ {| key := Key "x"; section := Appearance;
                    description := "Toggle Night Mode" |} ])
    ∈ sections {| shortcuts := sample_bindings; mousetrap := ∅ |} /\
  [ {| key := Key "x"; section := Appearance;
       description := "Toggle Night Mode" |} ] <> [].
Proof.
  assert (Hin :
    (Appearance, [ {| key := Key "x"; section := Appearance;
                      description := "Toggle Night Mode" |} ])
      ∈ sections {| shortcuts := sample_bindings; mousetrap := ∅ |}).
  { apply (proj1 (proj2 (proj2
             (proj1 sections_grouping
                {| shortcuts := sample_bindings; mousetrap := ∅ |})))).
    split; [|reflexivity].
    simpl. right. left. }
  split; [exact Hin|].
  exact (proj2 (proj2 (proj2
           (proj1 sections_grouping
              {| shortcuts := sample_bindings; mousetrap := ∅ |}))) _ _ Hin).
Defined.

(** *** The theme notification *)

(** One layer of [Mousetrap.bind] in a lookup of a literal pattern. *)
Ltac trigger_step :=
  rewrite Mousetrap_bind_trigger;
  let H := fresh "H" in
  case_decide as H;
  [ first [ by (apply list_elem_of_singleton in H; discriminate) | reflexivity ]
  | try (exfalso; apply H; simpl; left; fail) ].

Lemma effect_binds_theme_keys helpShown colorScheme r :
  Mousetrap_trigger "z" (mousetrap (effect helpShown colorScheme r))
  = Some (CycleThemeAndNotify (-1)) /\
  Mousetrap_trigger "c" (mousetrap (effect helpShown colorScheme r))
  = Some (CycleThemeAndNotify 1).
Proof.
  unfold effect, bind. cbv zeta. cbn [mousetrap].
  split; repeat trigger_step.
Qed.

(** C7: once the component is mounted, [z] and [c] run the callbacks that
    dispatch [cycleTheme] and then, when the theme list knows the
    identifier found in the store after that dispatch, one notification
    naming that theme.  A notification they emit therefore always names the
    theme whose identifier the store holds at that moment. *)
Theorem cycleThemeHandler_notifies_current_theme
    (themes : list Theme) (State : Type) (theme_id : State -> string)
    (reducer : State -> ReduxAction -> State) (offset : Z) (s : Store State) :
  (forall helpShown colorScheme r,
      Mousetrap_trigger "z" (mousetrap (effect helpShown colorScheme r))
      = Some (CycleThemeAndNotify (-1)) /\
      Mousetrap_trigger "c" (mousetrap (effect helpShown colorScheme r))
      = Some (CycleThemeAndNotify 1)) /\
  dispatched (runAction themes theme_id reducer (CycleThemeAndNotify offset) s)
  = dispatched s ++ cycleTheme offset ::
      match find_theme themes
              (theme_id (getState (dispatch reducer (cycleTheme offset) s))) with
      | Some theme =>
          [openNotification ("Theme switched to " +:+ name theme)
             {| timeout := Some 1000; overwritable := true |}]
      | None => []
      end /\
  getState (dispatch reducer (cycleTheme offset) s)
  = reducer (getState s) (cycleTheme offset) /\
  forall message,
    message ∈ notifications_after (length (dispatched s))
                (runAction themes theme_id reducer (CycleThemeAndNotify offset) s) ->
    exists theme,
      theme ∈ themes /\
      id theme = theme_id (reducer (getState s) (cycleTheme offset)) /\
      message = "Theme switched to " +:+ name theme.
Proof.
  split; [apply effect_binds_theme_keys|].
  cbn [runAction].
  assert (Hlog :
    dispatched (cycleThemeHandler themes theme_id reducer offset s)
    = dispatched s ++ cycleTheme offset ::
        match find_theme themes
                (theme_id (getState (dispatch reducer (cycleTheme offset) s))) with
        | Some theme =>
            [openNotification ("Theme switched to " +:+ name theme)
               {| timeout := Some 1000; overwritable := true |}]
        | None => []
        end).
  { unfold cycleThemeHandler, notifyThemeChange.
    destruct (find_theme _ _); simpl; [by rewrite <- app_assoc|done]. }
  split; [done|]. split; [done|].
  intros message. unfold notifications_after.
  rewrite Hlog, drop_app_length. simpl.
  destruct (find_theme _ _) as [theme|] eqn:Hfind; simpl.
  - intros ->%list_elem_of_singleton.
    apply find_some in Hfind as [Hin Hid].
    exists theme. split; [by apply list_elem_of_In|].
    split; [by apply bool_decide_eq_true in Hid|done].
  - intros Hin. by apply elem_of_nil in Hin.
Qed.

Lemma cycleThemeHandler_notifies_current_theme_witness :
  exists theme,
    theme ∈ sample_themes /\
    id theme = sample_reducer "ashes" (cycleTheme 1) /\
    "Theme switched to Chalk" = "Theme switched to " +:+ name theme.
Proof.
  apply (proj2 (proj2 (proj2 (cycleThemeHandler_notifies_current_theme
                                sample_themes string (fun st => st) sample_reducer 1
                                (sample_store "ashes"))))).
  vm_compute. left.
Defined.

(** In the sample store the notification after [c] names the new theme and
    not the one shown before. *)
Example cycleThemeHandler_sample :
  notifications_after 0
    (runAction sample_themes (fun st => st) sample_reducer (CycleThemeAndNotify 1)
       (sample_store "ashes"))
  = ["Theme switched to Chalk"].
Proof. reflexivity. Qed.

(** *** Rendering a shortcut *)










(** The letter replaced is the first lower-case letter that starts a
    word. *)
Example capitalize_examples :
  capitalize "ctrl+s" = "Ctrl+s" /\
  capitalize "up up down down left right left right b a"
  = "Up up down down left right left right b a" /\
  capitalize "?" = "?" /\
  capitalize "A b" = "A B".
Proof. repeat split; reflexivity. Qed.

End KeyboardShortcutsProps.

(** ** More on themePicker.js *)

Module ThemeCyclingProps.
Import ThemePicker ThemeCycling ThemePickerProps.

Lemma allThemes_length opts : length (allThemes opts) = length opts.
Proof. unfold allThemes. apply length_map. Qed.




(** One step from the entry at index [n] of a catalog without repeated
    values leads to the entry at index [(n + delta) mod length]. *)
Lemma selectNextTheme_step opts direction p t (n : nat) :
  NoDup (allThemes opts) ->
  currentTheme p = Some t ->
  allThemes opts !! n = Some t ->
  exists p' t',
    selectNextTheme opts direction p = Returns p' /\
    currentTheme p' = Some t' /\
    allThemes opts
      !! Z.to_nat ((Z.of_nat n + (if decide (direction = "Left") then -1 else 1))
                   mod Z.of_nat (length opts)) = Some t'.
Proof.
  intros Hnd Hcur Hn.
  pose proof (lookup_lt_Some _ _ _ Hn) as Hlt. rewrite allThemes_length in Hlt.
  set (delta := if decide (direction = "Left") then -1 else 1).
  assert (Hdelta : delta = -1 \/ delta = 1)
    by (unfold delta; destruct (decide _); auto).
  assert (Hmod : (Z.of_nat n + delta + Z.of_nat (length opts)) mod Z.of_nat (length opts)
                 = (Z.of_nat n + delta) mod Z.of_nat (length opts)).
  { replace (Z.of_nat n + delta + Z.of_nat (length opts))
      with (Z.of_nat n + delta + 1 * Z.of_nat (length opts)) by lia.
    apply Z_mod_plus_full. }
  assert (Hrange : 0 <= (Z.of_nat n + delta) mod Z.of_nat (length opts)
                   < Z.of_nat (length opts)) by (apply Z.mod_pos_bound; lia).
  destruct (lookup_lt_is_Some_2 opts
              (Z.to_nat ((Z.of_nat n + delta) mod Z.of_nat (length opts))))
    as [o Ho]; [lia|].
  exists (applyTheme (Some (value o)) p), (value o).
  split; [|split].
  - apply (selectNextTheme_at opts direction p t n o); try done.
    fold delta. by rewrite Hmod.
  - apply currentTheme_applyTheme.
  - by rewrite allThemes_lookup, Ho.
Qed.

(** X2: in a catalog without repeated values, [count] calls of
    [selectNextTheme] from the entry at index [n] lead to the entry at
    index [(n + count) mod length] going forward and
    [(n - count) mod length] going ['Left'], and none of them throws. *)
Theorem selectNextTheme_times_index opts direction count p t (n : nat) :
  NoDup (allThemes opts) ->
  currentTheme p = Some t ->
  allThemes opts !! n = Some t ->
  exists p' t',
    selectNextTheme_times opts direction count p = Returns p' /\
    currentTheme p' = Some t' /\
    allThemes opts
      !! Z.to_nat ((Z.of_nat n
                    + Z.of_nat count * (if decide (direction = "Left") then -1 else 1))
                   mod Z.of_nat (length opts)) = Some t'.
Proof.
  intros Hnd. revert p t n.
  induction count as [|count IH]; intros p t n Hcur Hn.
  - exists p, t. split; [done|]. split; [done|].
    pose proof (lookup_lt_Some _ _ _ Hn) as Hlt. rewrite allThemes_length in Hlt.
    replace (Z.of_nat n + Z.of_nat 0 * _) with (Z.of_nat n) by lia.
    by rewrite Z.mod_small, Nat2Z.id by lia.
  - pose proof (lookup_lt_Some _ _ _ Hn) as Hlt. rewrite allThemes_length in Hlt.
    destruct (selectNextTheme_step opts direction p t n Hnd Hcur Hn)
      as (p1 & t1 & Hstep & Hcur1 & Hn1).
    destruct (IH p1 t1 _ Hcur1 Hn1) as (p' & t' & Hrun & Hcur' & Hn').
    exists p', t'. split; [simpl; by rewrite Hstep|]. split; [done|].
    set (delta := if decide (direction = "Left") then -1 else 1) in *.
    rewrite Z2Nat.id in Hn' by (apply Z.mod_pos_bound; lia).
    rewrite Zplus_mod_idemp_l in Hn'.
    by replace (Z.of_nat n + Z.of_nat (S count) * delta)
      with (Z.of_nat n + delta + Z.of_nat count * delta) by lia.
Qed.

Lemma selectNextTheme_times_index_witness :
  exists p' t',
    selectNextTheme_times catalogABC "Right" 5 (page_with "B" "default") = Returns p' /\
    currentTheme p' = Some t' /\
    allThemes catalogABC
      !! Z.to_nat ((Z.of_nat 1 + Z.of_nat 5 * (if decide ("Right" = "Left") then -1 else 1))
                   mod Z.of_nat (length catalogABC)) = Some t'.
Proof.
  apply (selectNextTheme_times_index catalogABC "Right" 5 (page_with "B" "default") "B" 1).
  - apply NoDup_catalogABC.
  - reflexivity.
  - reflexivity.
Defined.

(** X3: in a catalog without repeated values, in either direction, as many
    calls as the catalog has entries bring back the theme one started
    from, and every theme of the catalog is reached with fewer calls than
    that. *)
Theorem selectNextTheme_cycle opts direction p t :
  NoDup (allThemes opts) ->
  currentTheme p = Some t ->
  t ∈ allThemes opts ->
  (exists p',
      selectNextTheme_times opts direction (length opts) p = Returns p' /\
      currentTheme p' = Some t) /\
  (forall t', t' ∈ allThemes opts ->
     exists count p',
       (count < length opts)%nat /\
       selectNextTheme_times opts direction count p = Returns p' /\
       currentTheme p' = Some t').
Proof.
  intros Hnd Hcur Hin.
  apply list_elem_of_lookup in Hin as [n Hn].
  pose proof (lookup_lt_Some _ _ _ Hn) as Hlt. rewrite allThemes_length in Hlt.
  set (len := Z.of_nat (length opts)).
  split.
  - destruct (selectNextTheme_times_index opts direction (length opts) p t n Hnd Hcur Hn)
      as (p' & t' & Hrun & Hcur' & Hn').
    exists p'. split; [done|]. rewrite Hcur'. rewrite <- Hn, <- Hn'. f_equal.
    fold len.
    replace (Z.of_nat n + len * (if decide (direction = "Left") then -1 else 1))
      with (Z.of_nat n + (if decide (direction = "Left") then -1 else 1) * len)
      by lia.
    rewrite Z_mod_plus_full, Z.mod_small by lia. by rewrite Nat2Z.id.
  - intros t' [m Hm]%list_elem_of_lookup.
    pose proof (lookup_lt_Some _ _ _ Hm) as Hltm. rewrite allThemes_length in Hltm.
    set (delta := if decide (direction = "Left") then -1 else 1).
    set (count := Z.to_nat (((Z.of_nat m - Z.of_nat n) * delta) mod len)).
    assert (Hcount : 0 <= ((Z.of_nat m - Z.of_nat n) * delta) mod len < len)
      by (apply Z.mod_pos_bound; lia).
    destruct (selectNextTheme_times_index opts direction count p t n Hnd Hcur Hn)
      as (p' & t'' & Hrun & Hcur' & Hn').
    exists count, p'. split; [unfold count; lia|]. split; [done|].
    rewrite Hcur', <- Hm, <- Hn'. f_equal.
    fold len delta. unfold count. rewrite Z2Nat.id by lia.
    rewrite <- Zplus_mod_idemp_r, Zmult_mod_idemp_l, Zplus_mod_idemp_r.
    replace (Z.of_nat n + (Z.of_nat m - Z.of_nat n) * delta * delta)
      with (Z.of_nat m)
      by (unfold delta; destruct (decide _); lia).
    rewrite Z.mod_small by lia. by rewrite Nat2Z.id.
Qed.

Lemma selectNextTheme_cycle_witness :
  (exists p',
      selectNextTheme_times catalogABC "Left" (length catalogABC)
        (page_with "B" "default") = Returns p' /\
      currentTheme p' = Some "B") /\
  (exists count p',
      (count < length catalogABC)%nat /\
      selectNextTheme_times catalogABC "Left" count (page_with "B" "default")
      = Returns p' /\
      currentTheme p' = Some "C").
Proof.
  destruct (selectNextTheme_cycle catalogABC "Left" (page_with "B" "default") "B")
    as [Hback Hreach].
  - apply NoDup_catalogABC.
  - reflexivity.
  - apply (bool_decide_unpack _). by vm_compute.
  - split; [exact Hback|]. apply Hreach.
    apply (bool_decide_unpack _). by vm_compute.
Defined.

End ThemeCyclingProps.

Module ThemeAppearanceProps.
Import ThemePicker ThemeCycling ThemePickerProps.





(** X5: the picker keeps the store and the page together.  [applyTheme]
    stores the theme it shows and [toggleMode] the mode it shows, and each
    leaves the agreement of the other preference as it found it. *)
Theorem stored_preferences_follow_page :
  (forall t p,
      theme_persisted (applyTheme (Some t) p) /\
      (mode_persisted p -> mode_persisted (applyTheme (Some t) p))) /\
  (forall p,
      mode_persisted (toggleMode p) /\
      (theme_persisted p -> theme_persisted (toggleMode p))).
Proof.
  split.
  - intros t p. split.
    + unfold theme_persisted. rewrite currentTheme_applyTheme. apply lookup_insert_eq.
    + unfold mode_persisted. rewrite currentMode_applyTheme.
      unfold applyTheme, updateAppearance; simpl.
      by rewrite lookup_insert_ne by discriminate.
  - intros p. split.
    + unfold mode_persisted. rewrite currentMode_toggleMode. apply lookup_insert_eq.
    + unfold theme_persisted, currentTheme, toggleMode, updateAppearance; simpl.
      by rewrite !lookup_insert_ne by discriminate.
Qed.

Lemma stored_preferences_follow_page_witness :
  mode_persisted (applyTheme (Some "C") (toggleMode (page_with "A" "slate"))) /\
  theme_persisted (toggleMode (applyTheme (Some "C") (page_with "A" "slate"))).
Proof.
  split.
  - apply (proj1 stored_preferences_follow_page "C").
    apply (proj2 stored_preferences_follow_page).
  - apply (proj2 stored_preferences_follow_page).
    apply (proj1 stored_preferences_follow_page "C").
Defined.

(** X6: changing the theme and changing the mode do not interfere.
    [applyTheme] leaves the mode attribute, the mode radios, the style
    sheet and every stored key but ["theme"] alone; [toggleMode] leaves
    the theme attribute, [#theme-options] and every stored key but
    ["mode"] alone. *)
Theorem theme_and_mode_independent :
  (forall t p,
      currentMode (applyTheme (Some t) p) = currentMode p /\
      mode_radios (applyTheme (Some t) p) = mode_radios p /\
      mode_href (applyTheme (Some t) p) = mode_href p /\
      forall k, k <> "theme" ->
        storage (applyTheme (Some t) p) !! k = storage p !! k) /\
  (forall p,
      currentTheme (toggleMode p) = currentTheme p /\
      theme_options (toggleMode p) = theme_options p /\
      forall k, k <> "mode" -> storage (toggleMode p) !! k = storage p !! k).
Proof.
  split.
  - intros t p. split; [apply currentMode_applyTheme|].
    split; [done|]. split; [done|].
    intros k Hk. unfold applyTheme, updateAppearance; simpl.
    by rewrite lookup_insert_ne.
  - intros p. split; [|split; [done|]].
    + unfold currentTheme, toggleMode, updateAppearance; simpl.
      by rewrite lookup_insert_ne by discriminate.
    + intros k Hk. unfold toggleMode, updateAppearance; simpl.
      by rewrite lookup_insert_ne.
Qed.

Lemma theme_and_mode_independent_witness :
  storage (applyTheme (Some "C") (toggleMode (page_with "A" "slate"))) !! "mode"
  = storage (toggleMode (page_with "A" "slate")) !! "mode".
Proof.
  apply (proj1 theme_and_mode_independent "C" (toggleMode (page_with "A" "slate"))).
  discriminate.
Defined.

(** X7: two calls of [toggleMode] restore [data-mode] exactly when it held
    one of the two literals.  From any other value, and from a [body]
    without the attribute, the first call gives ['default'] and the second
    ['slate']. *)
Theorem toggleMode_twice_restores_iff_literal p :
  (currentMode (toggleMode (toggleMode p)) = currentMode p <->
   currentMode p = Some "default" \/ currentMode p = Some "slate") /\
  (currentMode p <> Some "default" ->
   currentMode (toggleMode p) = Some "default" /\
   currentMode (toggleMode (toggleMode p)) = Some "slate").
Proof.
  rewrite !currentMode_toggleMode.
  destruct (decide (currentMode p = Some "default")) as [Hd|Hd].
  - destruct (decide (Some "slate" = Some "default")); [done|].
    split; [|done]. split; [by left|by rewrite Hd].
  - destruct (decide (Some "default" = Some "default")); [|done].
    split; [|done]. split; [by right|]. intros [?|?]; done.
Qed.

Lemma toggleMode_twice_restores_iff_literal_witness :
  currentMode (toggleMode (toggleMode (page_with "A" "slate")))
  = currentMode (page_with "A" "slate") /\
  (currentMode (toggleMode (page_with "A" "night")) = Some "default" /\
   currentMode (toggleMode (toggleMode (page_with "A" "night"))) = Some "slate").
Proof.
  split.
  - apply (proj1 (toggleMode_twice_restores_iff_literal (page_with "A" "slate"))).
    right. reflexivity.
  - apply (proj2 (toggleMode_twice_restores_iff_literal (page_with "A" "night"))).
    discriminate.
Defined.



End ThemeAppearanceProps.

Module RandomThemeProps.
Import ThemePicker ThemeCycling ThemePickerProps.

(** What the loop returns is the first draw, from where it starts, that
    does not pick the current theme. *)
Lemma randomLoop_result opts draws cur fuel (n : nat) v :
  randomLoop opts draws cur fuel n = Some v ->
  exists k, (n <= k)%nat /\
    v = allThemes opts !! draws k /\
    v <> cur /\
    forall j, (n <= j < k)%nat -> allThemes opts !! draws j = cur.
Proof.
  revert n. induction fuel as [|fuel IH]; intros n; simpl; [done|].
  destruct (decide (allThemes opts !! draws n = cur)) as [Heq|Hne].
  - intros (k & Hk & Hv & Hdiff & Hbefore)%IH.
    exists k. split; [lia|]. split; [done|]. split; [done|].
    intros j Hj. destruct (decide (j = n)) as [->|]; [done|].
    apply Hbefore. lia.
  - intros [= <-]. exists n. split; [lia|]. split; [done|]. split; [done|].
    intros j Hj. lia.
Qed.

(** X9: [selectRandomTheme] leaves its loop exactly when some draw picks
    something other than the current theme.  Over a catalog all of whose
    entries are the current theme, a catalog of one entry or of several
    equal ones, draws inside the catalog never do, and the call does not
    return. *)
Theorem selectRandomTheme_returns_iff opts draws p :
  ((exists fuel p', selectRandomTheme opts draws fuel p = Some p') <->
   (exists k, allThemes opts !! draws k <> currentTheme p)) /\
  ((forall j, (draws j < length opts)%nat) ->
   (forall t, t ∈ allThemes opts -> currentTheme p = Some t) ->
   forall fuel, selectRandomTheme opts draws fuel p = None).
Proof.
  assert (Hiff : (exists fuel p', selectRandomTheme opts draws fuel p = Some p') <->
                 (exists k, allThemes opts !! draws k <> currentTheme p)).
  { split.
    - intros (fuel & p' & Hrun). unfold selectRandomTheme in Hrun.
      destruct (randomLoop _ _ _ _ _) as [v|] eqn:Hloop; [|done].
      apply randomLoop_result in Hloop as (k & _ & -> & Hdiff & _). by exists k.
    - intros [k Hk].
      destruct (randomLoop_leaves opts draws (currentTheme p) k 0 Hk)
        as (j & _ & _ & Hrun).
      exists (S j), (applyTheme (allThemes opts !! draws (0 + j)%nat) p).
      unfold selectRandomTheme. by rewrite Hrun by lia. }
  split; [done|].
  intros Hrange Hall fuel.
  destruct (selectRandomTheme opts draws fuel p) as [p'|] eqn:Hrun; [|done].
  exfalso. destruct (proj1 Hiff (ex_intro _ fuel (ex_intro _ p' Hrun))) as [k Hk].
  apply Hk.
  destruct (lookup_lt_is_Some_2 (allThemes opts) (draws k)) as [t Ht].
  { unfold allThemes. rewrite length_map. apply Hrange. }
  rewrite Ht. symmetry. apply Hall. by eapply list_elem_of_lookup_2.
Qed.

Lemma selectRandomTheme_returns_iff_witness :
  (exists fuel p',
      selectRandomTheme catalogABC (fun k => k mod 3)%nat fuel (page_with "A" "default")
      = Some p') /\
  forall fuel,
    selectRandomTheme [option_of "A"; option_of "A"] (fun k => k mod 2)%nat fuel
      (page_with "A" "default") = None.
Proof.
  split.
  - apply (proj1 (selectRandomTheme_returns_iff catalogABC (fun k => k mod 3)%nat
                    (page_with "A" "default"))).
    exists 1%nat. vm_compute. discriminate.
  - apply (proj2 (selectRandomTheme_returns_iff [option_of "A"; option_of "A"]
                    (fun k => k mod 2)%nat (page_with "A" "default"))).
    + intros j. simpl length. apply Nat.mod_upper_bound. lia.
    + intros t Ht. simpl in Ht.
      apply elem_of_cons in Ht as [->|Ht]; [reflexivity|].
      apply list_elem_of_singleton in Ht as ->. reflexivity.
Defined.

(** X10: when [selectRandomTheme] returns and its draws stay inside the
    catalog, it has applied the first drawn entry that is not the current
    theme: the page is the one [applyTheme] gives for a theme of the
    catalog, that theme is now current, and it differs from the theme that
    was current before. *)
Theorem selectRandomTheme_result opts draws fuel p p' :
  (forall j, (draws j < length opts)%nat) ->
  selectRandomTheme opts draws fuel p = Some p' ->
  exists k t,
    allThemes opts !! draws k = Some t /\
    (forall j, (j < k)%nat -> allThemes opts !! draws j = currentTheme p) /\
    p' = applyTheme (Some t) p /\
    currentTheme p' = Some t /\
    currentTheme p' <> currentTheme p /\
    currentMode p' = currentMode p.
Proof.
  intros Hrange Hrun. unfold selectRandomTheme in Hrun.
  destruct (randomLoop _ _ _ _ _) as [v|] eqn:Hloop; [|done].
  simplify_eq. apply randomLoop_result in Hloop as (k & _ & -> & Hdiff & Hbefore).
  destruct (lookup_lt_is_Some_2 (allThemes opts) (draws k)) as [t Ht].
  { unfold allThemes. rewrite length_map. apply Hrange. }
  exists k, t. rewrite Ht in *.
  split; [done|]. split; [intros j Hj; apply Hbefore; lia|]. split; [done|].
  rewrite currentTheme_applyTheme, currentMode_applyTheme. done.
Qed.

Lemma selectRandomTheme_result_witness :
  exists k t,
    allThemes catalogABC !! ((fun k => k mod 3)%nat k) = Some t /\
    (forall j, (j < k)%nat ->
       allThemes catalogABC !! ((fun k => k mod 3)%nat j)
       = currentTheme (page_with "A" "default")) /\
    applyTheme (Some "B") (page_with "A" "default")
    = applyTheme (Some t) (page_with "A" "default") /\
    currentTheme (applyTheme (Some "B") (page_with "A" "default")) = Some t /\
    currentTheme (applyTheme (Some "B") (page_with "A" "default"))
    <> currentTheme (page_with "A" "default") /\
    currentMode (applyTheme (Some "B") (page_with "A" "default"))
    = currentMode (page_with "A" "default").
Proof.
  apply (selectRandomTheme_result catalogABC (fun k => k mod 3)%nat 2
           (page_with "A" "default")).
  - intros j. simpl length. apply Nat.mod_upper_bound. lia.
  - reflexivity.
Defined.

End RandomThemeProps.

(** ** The preferences view *)

Module PreferencesViewProps.
Import ThemePicker ThemeCycling ThemePickerProps PreferencesView.

Lemma savePreference_rejected v :
  savePreference "faculty" "default" v
  = {| page := page v;
       alerts := alerts v ++ ["You have to select a faculty."];
       faculty_vals := faculty_vals v ++ [getItem "faculty" (page v)] |}.
Proof. reflexivity. Qed.

Lemma savePreference_accepted property value v :
  ~ (property = "faculty" /\ value = "default") ->
  savePreference property value v
  = {| page :=
         if decide (property = "theme")
         then applyTheme (Some value) (setItem property value (page v))
         else if decide (property = "mode")
              then toggleMode (setItem property value (page v))
              else setItem property value (page v);
       alerts := alerts v;
       faculty_vals := faculty_vals v |}.
Proof. intros Hne. unfold savePreference. by destruct (decide _). Qed.

(** X11: choosing the placeholder ['default'] as faculty is refused: the
    page and the store stay as they are, one alert is shown, and the
    faculty field is given back the stored value.  No other change shows
    an alert, and whatever is saved, ['default'] never becomes the stored
    faculty. *)
Theorem savePreference_refuses_default_faculty v :
  (page (savePreference "faculty" "default" v) = page v /\
   alerts (savePreference "faculty" "default" v)
   = alerts v ++ ["You have to select a faculty."] /\
   faculty_vals (savePreference "faculty" "default" v)
   = faculty_vals v ++ [default None (storage (page v) !! "faculty")]) /\
  (forall property value,
      ~ (property = "faculty" /\ value = "default") ->
      alerts (savePreference property value v) = alerts v /\
      faculty_vals (savePreference property value v) = faculty_vals v) /\
  (forall property value,
      storage (page v) !! "faculty" <> Some (Some "default") ->
      storage (page (savePreference property value v)) !! "faculty"
      <> Some (Some "default")).
Proof.
  split; [done|]. split.
  - intros property value Hne. by rewrite savePreference_accepted.
  - intros property value Hbefore.
    destruct (decide (property = "faculty" /\ value = "default")) as [[-> ->]|Hne];
      [done|].
    rewrite savePreference_accepted by done. simpl.
    destruct (decide (property = "faculty")) as [->|Hp].
    + simpl. rewrite lookup_insert_eq. intros [= ->]. by apply Hne.
    + destruct (decide (property = "theme")) as [->|];
        [|destruct (decide (property = "mode")) as [->|]].
      * unfold applyTheme, updateAppearance; simpl.
        by rewrite !lookup_insert_ne by discriminate.
      * unfold toggleMode, updateAppearance; simpl.
        by rewrite !lookup_insert_ne by discriminate.
      * simpl. by rewrite lookup_insert_ne.
Qed.

Lemma savePreference_refuses_default_faculty_witness :
  (alerts (savePreference "faculty" "science" (view_of (page_with "A" "default"))) = [] /\
   faculty_vals (savePreference "faculty" "science" (view_of (page_with "A" "default")))
   = []) /\
  storage (page (savePreference "faculty" "default"
                   (savePreference "faculty" "science"
                      (view_of (page_with "A" "default"))))) !! "faculty"
  <> Some (Some "default").
Proof.
  split.
  - apply (proj1 (proj2 (savePreference_refuses_default_faculty
                           (view_of (page_with "A" "default"))))).
    intros [_ H]. discriminate H.
  - apply (proj2 (proj2 (savePreference_refuses_default_faculty
                           (savePreference "faculty" "science"
                              (view_of (page_with "A" "default")))))).
    vm_compute. discriminate.
Defined.

(** X12: a preference that is accepted and is not the mode is stored under
    its name with the value given.  A theme is moreover applied: it becomes
    the current theme and the store agrees with the page; a preference
    other than the theme and the mode leaves the attributes and classes of
    [body] untouched. *)
Theorem savePreference_stores_value property value v :
  ~ (property = "faculty" /\ value = "default") ->
  property <> "mode" ->
  storage (page (savePreference property value v)) !! property = Some (Some value) /\
  (property = "theme" ->
   currentTheme (page (savePreference property value v)) = Some value /\
   theme_persisted (page (savePreference property value v)) /\
   currentMode (page (savePreference property value v)) = currentMode (page v)) /\
  (property <> "theme" ->
   body_attrs (page (savePreference property value v)) = body_attrs (page v) /\
   body_classes (page (savePreference property value v)) = body_classes (page v) /\
   forall k, k <> property ->
     storage (page (savePreference property value v)) !! k = storage (page v) !! k).
Proof.
  intros Hok Hmode. rewrite savePreference_accepted by done. simpl.
  destruct (decide (property = "theme")) as [->|Htheme].
  - split; [apply lookup_insert_eq|]. split; [|done]. intros _.
    split; [apply currentTheme_applyTheme|]. split.
    + unfold theme_persisted. rewrite currentTheme_applyTheme. apply lookup_insert_eq.
    + by rewrite currentMode_applyTheme.
  - destruct (decide (property = "mode")); [done|].
    split; [apply lookup_insert_eq|]. split; [done|]. intros _.
    split; [done|]. split; [done|].
    intros k Hk. simpl. by rewrite lookup_insert_ne.
Qed.

Lemma savePreference_stores_value_witness :
  storage (page (savePreference "theme" "C" (view_of (page_with "A" "slate")))) !! "theme"
  = Some (Some "C") /\
  currentTheme (page (savePreference "theme" "C" (view_of (page_with "A" "slate"))))
  = Some "C" /\
  body_classes (page (savePreference "student" "undergraduate"
                        (view_of (page_with "A" "slate"))))
  = body_classes (page_with "A" "slate").
Proof.
  destruct (savePreference_stores_value "theme" "C" (view_of (page_with "A" "slate")))
    as (Hstored & Htheme & _).
  { intros [H _]. discriminate H. } { discriminate. }
  destruct (savePreference_stores_value "student" "undergraduate"
              (view_of (page_with "A" "slate")))
    as (_ & _ & Hother).
  { intros [H _]. discriminate H. } { discriminate. }
  split; [exact Hstored|]. split.
  - apply Htheme. reflexivity.
  - apply Hother. discriminate.
Defined.

(** X13: saving the mode toggles it, whatever value is given: the mode
    shown afterwards is ['slate'] if ['default'] was shown and ['default']
    otherwise, and that, not the value given, is what the store holds in
    the end.  The stored mode is the value given exactly when the value is
    the mode toggled to. *)
Theorem savePreference_mode_toggles value v :
  currentMode (page (savePreference "mode" value v))
  = Some (if decide (currentMode (page v) = Some "default")
          then "slate" else "default") /\
  mode_persisted (page (savePreference "mode" value v)) /\
  (storage (page (savePreference "mode" value v)) !! "mode" = Some (Some value) <->
   value = if decide (currentMode (page v) = Some "default")
           then "slate" else "default").
Proof.
  rewrite savePreference_accepted by (intros [H _]; discriminate H). simpl.
  assert (Hmode : currentMode (toggleMode (setItem "mode" value (page v)))
                  = Some (if decide (currentMode (page v) = Some "default")
                          then "slate" else "default"))
    by (by rewrite currentMode_toggleMode).
  assert (Hstored : mode_persisted (toggleMode (setItem "mode" value (page v)))).
  { unfold mode_persisted. rewrite Hmode. apply lookup_insert_eq. }
  split; [done|]. split; [done|].
  rewrite Hstored, Hmode. split; [by intros [= ->]|by intros ->].
Qed.

(** Saving ['slate'] while ['slate'] is shown ends with ['default'] shown
    and stored. *)
Example savePreference_mode_same_value :
  currentMode (page (savePreference "mode" "slate" (view_of (page_with "A" "slate"))))
  = Some "default" /\
  storage (page (savePreference "mode" "slate" (view_of (page_with "A" "slate"))))
    !! "mode" = Some (Some "default").
Proof. split; reflexivity. Qed.

Lemma savePreference_mode_toggles_witness :
  storage (page (savePreference "mode" "slate" (view_of (page_with "A" "default"))))
    !! "mode" = Some (Some "slate").
Proof.
  apply (proj2 (proj2 (savePreference_mode_toggles "slate"
                         (view_of (page_with "A" "default"))))).
  reflexivity.
Defined.

End PreferencesViewProps.

(** ** More on KeyboardShortcuts.tsx *)

Module KeyboardShortcutsLifecycle.
Import KeyboardShortcuts ShortcutLifecycle KeyboardShortcutsProps.

(** The callback a pattern triggers after the effect depends on the table
    before it only for the patterns the effect does not bind. *)
Lemma effect_trigger helpShown colorScheme r1 r2 p :
  (p ∉ bound_by_effect ->
   Mousetrap_trigger p (mousetrap r1) = Mousetrap_trigger p (mousetrap r2)) ->
  Mousetrap_trigger p (mousetrap (effect helpShown colorScheme r1))
  = Mousetrap_trigger p (mousetrap (effect helpShown colorScheme r2)).
Proof.
  intros Hother. unfold effect, bind. cbv zeta. cbn [mousetrap].
  rewrite !Mousetrap_bind_trigger. cbn [patterns].
  repeat case_decide; try reflexivity.
  apply Hother. intros Hin. unfold bound_by_effect in Hin.
  repeat (apply elem_of_cons in Hin as [->|Hin];
          [match goal with Hn : ?q ∉ [?q] |- _ => by (apply Hn; left) end|]).
  by apply elem_of_nil in Hin.
Qed.

(** X14: the function run on unmount touches the recorded patterns only.
    After it a pattern recorded in [shortcuts] triggers the empty
    function, every other pattern triggers what it triggered before, the
    list is empty, and running it again changes nothing more. *)
Theorem cleanup_exact r :
  (forall p,
      Mousetrap_trigger p (mousetrap (cleanup r))
      = if decide (p ∈ concat (map (fun b => patterns (key b)) (shortcuts r)))
        then Some Unbound
        else Mousetrap_trigger p (mousetrap r)) /\
  shortcuts (cleanup r) = [] /\
  cleanup (cleanup r) = cleanup r.
Proof.
  split; [|done]. intros p. unfold cleanup. cbn [mousetrap].
  apply unbind_all_trigger.
Qed.

(** The effect leaves the patterns it does not bind as they were. *)
Lemma effect_frame helpShown colorScheme r p :
  p ∉ bound_by_effect ->
  Mousetrap_trigger p (mousetrap (effect helpShown colorScheme r))
  = Mousetrap_trigger p (mousetrap r).
Proof.
  intros Hp. unfold effect, bind. cbv zeta. cbn [mousetrap].
  rewrite !Mousetrap_bind_trigger. cbn [patterns].
  repeat case_decide; try reflexivity; exfalso; apply Hp;
    match goal with
    | H : p ∈ [_] |- _ => apply list_elem_of_singleton in H; subst p
    end;
    apply (bool_decide_unpack _); by vm_compute.
Qed.

(** X15: when the effect runs again after its cleanup, as it does each
    time [helpShown] or the colour scheme changes, the table and the list
    are those of a first mount with the new values: every pattern triggers
    what it would trigger had the component just been mounted, and the
    list holds the twelve bindings once. *)
Theorem effect_after_cleanup helpShown colorScheme helpShown' colorScheme' m :
  mousetrap (effect helpShown' colorScheme'
               (cleanup (effect helpShown colorScheme (unmounted m))))
  = mousetrap (effect helpShown' colorScheme' (unmounted m)) /\
  shortcuts (effect helpShown' colorScheme'
               (cleanup (effect helpShown colorScheme (unmounted m))))
  = shortcuts (effect helpShown' colorScheme' (unmounted m)) /\
  length (shortcuts (effect helpShown' colorScheme'
                       (cleanup (effect helpShown colorScheme (unmounted m)))))
  = 12%nat.
Proof.
  split; [|split; reflexivity].
  apply map_eq. intros p.
  change (Mousetrap_trigger p
            (mousetrap (effect helpShown' colorScheme'
                          (cleanup (effect helpShown colorScheme (unmounted m)))))
          = Mousetrap_trigger p
              (mousetrap (effect helpShown' colorScheme' (unmounted m)))).
  apply effect_trigger. intros Hp.
  unfold cleanup. cbn [mousetrap].
  rewrite unbind_all_trigger, effect_patterns.
  destruct (decide _) as [Hin|_].
  - exfalso. apply Hp.
    change bound_by_effect
      with (["y"; "t"; "m"; "v"; "s"; "/"; "?"; "o"; "d"; "x"; "z"; "c"]
            ++ [EASTER_EGG]).
    apply elem_of_app. by left.
  - by apply effect_frame.
Qed.

(** Without the cleanup in between the list would hold every binding
    twice. *)
Example effect_twice_lists_twice helpShown colorScheme m :
  length (shortcuts (effect helpShown colorScheme
                       (effect helpShown colorScheme (unmounted m)))) = 24%nat.
Proof. reflexivity. Qed.

End KeyboardShortcutsLifecycle.

Module HelpDialogProps.
Import KeyboardShortcuts KeyboardShortcutsProps.

Lemma push_group_concat {A K : Type} `{EqDecision K} (k : K) (x : A)
    (g : list (K * list A)) :
  concat (map snd (push_group k x g)) ≡ₚ x :: concat (map snd g).
Proof.
  induction g as [|[k' grp] g IH]; simpl; [done|].
  destruct (decide (k' = k)); simpl.
  - rewrite <- app_assoc. simpl. symmetry. apply Permutation_middle.
  - rewrite IH. symmetry. apply Permutation_middle.
Qed.

Lemma groupBy_concat {A K : Type} `{EqDecision K} (f : A -> K) (l : list A) :
  concat (map snd (groupBy f l)) ≡ₚ l.
Proof.
  induction l as [|x l IH] using rev_ind; [done|].
  unfold groupBy in *. rewrite foldl_snoc, push_group_concat, IH.
  apply Permutation_cons_append.
Qed.

(** X16: the help dialog shows what is recorded and nothing else: the
    rows of all its sections together are a rearrangement of the recorded
    shortcuts, so a shortcut has as many rows as it has entries in the
    list, and each row stands under the section of its binding. *)
Theorem sections_partition r :
  concat (map snd (sections r)) ≡ₚ shortcuts r /\
  (forall b, b ∈ shortcuts r <-> exists s grp, (s, grp) ∈ sections r /\ b ∈ grp) /\
  (forall s grp b, (s, grp) ∈ sections r -> b ∈ grp -> section b = s).
Proof.
  assert (Hperm : concat (map snd (sections r)) ≡ₚ shortcuts r)
    by apply groupBy_concat.
  split; [done|]. split.
  - intros b. rewrite <- Hperm. split.
    + intros Hb. apply list_elem_of_In, in_concat in Hb as (grp & Hgrp & Hb).
      apply in_map_iff in Hgrp as ([s grp'] & <- & Hin).
      exists s, grp'. split; by apply list_elem_of_In.
    + intros (s & grp & Hin & Hb). apply list_elem_of_In, in_concat.
      exists grp. split; [|by apply list_elem_of_In].
      apply in_map_iff. exists (s, grp). split; [done|by apply list_elem_of_In].
  - intros s grp b Hin Hb. unfold sections in Hin.
    rewrite groupBy_closed_form in Hin.
    apply list_elem_of_fmap in Hin as (k & [= -> ->] & _).
    by apply list_elem_of_filter in Hb as [Hs _].
Qed.

Lemma sections_partition_witness :
  section {| key := Key "x"; section := Appearance;
             description := "Toggle Night Mode" |} = Appearance.
Proof.
  apply (proj2 (proj2 (sections_partition
                         {| shortcuts := sample_bindings; mousetrap := ∅ |}))
           Appearance
           [ {| key := Key "x"; section := Appearance;
                description := "Toggle Night Mode" |} ]).
  - vm_compute. right. left.
  - left.
Defined.

End HelpDialogProps.

Module ThemeNotificationProps.
Import KeyboardShortcuts KeyboardShortcutsProps.

(** X17: [notifyThemeChange] dispatches nothing, and leaves the store as
    it is, when no theme of the list has the identifier the store holds;
    when some have it, it dispatches one notification, naming the first of
    them in the list, with the timeout of one second and overwritable. *)
Theorem notifyThemeChange_lookup
    (themes : list Theme) (State : Type) (theme_id : State -> string)
    (reducer : State -> ReduxAction -> State) (s : Store State) :
  ((forall theme, theme ∈ themes -> id theme <> theme_id (getState s)) ->
   notifyThemeChange themes theme_id reducer s = s) /\
  (forall before theme after,
      themes = before ++ theme :: after ->
      id theme = theme_id (getState s) ->
      (forall other, other ∈ before -> id other <> theme_id (getState s)) ->
      dispatched (notifyThemeChange themes theme_id reducer s)
      = dispatched s
        ++ [openNotification ("Theme switched to " +:+ name theme)
              {| timeout := Some 1000; overwritable := true |}]).
Proof.
  split.
  - intros Hnone. unfold notifyThemeChange.
    destruct (find_theme themes _) as [theme|] eqn:Hfind; [|done].
    apply find_some in Hfind as [Hin Hid].
    apply bool_decide_eq_true in Hid.
    by destruct (Hnone theme (proj2 (list_elem_of_In _ _) Hin)).
  - intros before theme after -> Hid Hfirst.
    assert (Hfind : find_theme (before ++ theme :: after) (theme_id (getState s))
                    = Some theme).
    { unfold find_theme. induction before as [|t before IH]; simpl.
      - by rewrite bool_decide_eq_true_2.
      - rewrite bool_decide_eq_false_2 by (apply Hfirst; left).
        apply IH. intros other Hother. apply Hfirst. by right. }
    unfold notifyThemeChange. by rewrite Hfind.
Qed.

Lemma notifyThemeChange_lookup_witness :
  notifyThemeChange sample_themes (fun st => st) sample_reducer (sample_store "neon")
  = sample_store "neon" /\
  dispatched (notifyThemeChange sample_themes (fun st => st) sample_reducer
                (sample_store "chalk"))
  = dispatched (sample_store "chalk")
    ++ [openNotification "Theme switched to Chalk"
          {| timeout := Some 1000; overwritable := true |}].
Proof.
  split.
  - apply (proj1 (notifyThemeChange_lookup sample_themes string (fun st => st)
                    sample_reducer (sample_store "neon"))).
    intros theme Hin. simpl.
    repeat (apply elem_of_cons in Hin as [->|Hin]; [discriminate|]).
    by apply elem_of_nil in Hin.
  - apply (proj2 (notifyThemeChange_lookup sample_themes string (fun st => st)
                    sample_reducer (sample_store "chalk"))
             [ {| id := "ashes"; name := "Ashes" |} ]
             {| id := "chalk"; name := "Chalk" |}
             [ {| id := "eighties"; name := "Eighties" |} ]).
    + reflexivity.
    + reflexivity.
    + intros other Hin. apply list_elem_of_singleton in Hin as ->. discriminate.
Defined.

End ThemeNotificationProps.
